(** * The timeline page of [src/pages/index.tsx]

    A shallow embedding of the three components of the page
    ([CreatePostWizard], [PostView], [Feed]) together with the small amount
    of environment they run in: the mutation hook that tracks the in-flight
    create call, the browser's delivery of events to the rendered elements,
    and the notification surface.

    Components are functions from the values their hooks return to the
    element tree they render; event handlers are closures stored in that
    tree, and a handler is the list of effects it performs, in program
    order. *)

From Stdlib Require Import ZArith.
From stdpp Require Import base option list strings gmap.

Local Open Scope string_scope.

(** ** JavaScript truthiness, for the two kinds of value the page tests *)

Module Js.

(** A string is truthy unless it is empty. *)
Definition truthy_string (s : string) : bool := negb (String.eqb s "").

(** An object (here: an array, or a user record) is always truthy; only
    [undefined]/[null], modelled as [None], is falsy. *)
Definition truthy_object {A} (o : option A) : bool :=
  match o with Some _ => true | None => false end.

End Js.

(** ** The feed: [PostView] and [Feed] *)

Module FeedView.

Record Post := {
  id : string;
  content : string;
  createdAt : Z;
}.

Record Author := {
  username : string;
  profileImageUrl : option string;
}.

(** [RouterOutputs["post"]["getAll"][number]]: the router's output type
    is declared outside this file; the fields are those [PostView] reads
    ([author?.profileImageUrl ?? ""] tolerates an absent image). *)
Record PostWithAuthor := {
  post : Post;
  author : Author;
}.

(** Modelled from the spec: the result type of
    [api.post.getAll.useQuery()] is declared by the query library, outside
    this file.  The specification's cache entry holds [data] (a sequence,
    or absent), [isLoading] and [isError], each on its own.  The component
    reads [isLoading] and [data] only. *)
Record QueryResult := {
  data : option (list PostWithAuthor);
  isLoading : bool;
  isError : bool;
}.

(** The element tree of one post. *)
Record PostElem := {
  img_src : string;
  img_alt : string;
  inner_key : string;
  author_href : string;
  author_label : string;
  post_href : string;
  time_label : string;
  body : string;
}.

(** A child of a list, with the [key] React is given for it. *)
Record Keyed (A : Type) := { key : string; elem : A }.
Arguments key {A} _.
Arguments elem {A} _.

Inductive FeedElem :=
| LoadingPage (size : Z)
| SomethingWentWrong
| PostList (children : list (Keyed PostElem)).

Section WithClock.

(** [dayjs(t).fromNow()]: depends on the wall clock, so it is taken
    from the environment. *)
Variable fromNow : Z → string.

Definition PostView (p : PostWithAuthor) : PostElem :=
  let a := author p in
  {| img_src := default "" (profileImageUrl a);
     img_alt := "@" ++ username a ++ "'s profile image";
     inner_key := id (post p);
     author_href := "/@" ++ username a;
     author_label := "@" ++ username a;
     post_href := "/post/" ++ id (post p);
     time_label := fromNow (createdAt (post p));
     body := content (post p) |}.

Definition Feed (posts : QueryResult) : FeedElem :=
  if isLoading posts then LoadingPage 64
  else if negb (Js.truthy_object (data posts)) then SomethingWentWrong
  else
    PostList
      (default []
         (map (λ postWithAuthor,
                 {| key := id (post postWithAuthor);
                    elem := PostView postWithAuthor |})
            <$> data posts)).

(** The child [Feed] renders for one delivered element. *)
Definition post_child (p : PostWithAuthor) : Keyed PostElem :=
  {| key := id (post p); elem := PostView p |}.

End WithClock.

Definition is_loading_state (e : FeedElem) : Prop :=
  match e with LoadingPage _ => True | _ => False end.

Definition is_failure_state (e : FeedElem) : Prop :=
  match e with SomethingWentWrong => True | _ => False end.

Definition has_no_data (posts : QueryResult) : Prop := data posts = None.

(** The results the query hook returns: it reports [isLoading] only for
    an entry that has no data yet (once data has arrived, a refetch is
    reported by other flags, which the component does not read). *)
Definition loading_has_no_data (posts : QueryResult) : Prop :=
  isLoading posts = true → data posts = None.

(** The render policy in the words of the specification: loading exactly
    when the entry is loading and has no data, failure exactly when it is
    not loading and has no data. *)
Definition feed_policy_as_specified
    (fromNow : Z → string) (posts : QueryResult) : Prop :=
  (isLoading posts = true ∧ has_no_data posts →
     is_loading_state (Feed fromNow posts))
  ∧ (isLoading posts = false ∧ has_no_data posts →
     is_failure_state (Feed fromNow posts))
  ∧ (¬ has_no_data posts →
     ¬ is_loading_state (Feed fromNow posts)
     ∧ ¬ is_failure_state (Feed fromNow posts)).

Definition sample_post : PostWithAuthor :=
  {| post := {| id := "p1"; content := "👍"; createdAt := 0 |};
     author := {| username := "ada"; profileImageUrl := Some "/ada.png" |} |}.

Definition refetching_entry : QueryResult :=
  {| data := Some [sample_post]; isLoading := true; isError := false |}.

Definition now_label : Z → string := λ _, "now".

End FeedView.

(** ** The create-post error, as the client receives it *)

Module Trpc.

(** Modelled from the spec: the error type is declared by the remote
    procedure layer, outside this file.  A create failure carries an
    optional structured payload whose [fieldErrors] maps a field name to
    its list of messages ([fieldErrors.content : string[]]), or no payload
    at all. *)
Record ZodFlattened := {
  formErrors : list string;
  fieldErrors : gmap string (list string);
}.

Record ErrorData := {
  code : string;
  zodError : option ZodFlattened;
}.

Record ClientError := {
  message : string;
  data : option ErrorData;
}.

End Trpc.

(** ** [CreatePostWizard] *)

Module Wizard.

(** How the promise returned by a call is used by the caller. *)
Inductive PromiseUse := Awaited | Discarded.

(** The calls a handler of the component can make. *)
Inductive Effect :=
| SetInput (value : string)
| InvalidateGetAll (use : PromiseUse)
| ToastError (msg : string)
| ConsoleLog (label : string) (payload : option Trpc.ErrorData)
| Mutate (content : string)
| PreventDefault.

Definition fallback_message : string :=
  "Too many recent posts! Try again later.".

(** [onSuccess] of [api.post.create.useMutation]. *)
Definition onSuccess : list Effect :=
  [ SetInput "";
    InvalidateGetAll Discarded ].

(** [e.data?.zodError?.fieldErrors.content] *)
Definition content_errors (e : Trpc.ClientError) : option (list string) :=
  d ← Trpc.data e; z ← Trpc.zodError d; Trpc.fieldErrors z !! "content".

(** [onError] of [api.post.create.useMutation].  The test
    [errorMessage?.[0]] is a truthiness test on a string that may be
    absent; in its true branch [errorMessage[0]] is that string. *)
Definition onError (e : Trpc.ClientError) : list Effect :=
  let errorMessage := content_errors e in
  ConsoleLog "zodError" (Trpc.data e) ::
  match errorMessage ≫= (λ l, l !! 0%nat) with
  | Some first =>
      if Js.truthy_string first then [ToastError first]
      else [ToastError fallback_message]
  | None => [ToastError fallback_message]
  end.

(** The part of the identity provider's user the component reads. *)
Record User := {
  profileImageUrl : string;
}.

(** The values the component's hooks return on one render:
    [useState], [useMutation().isLoading] and [useUser().user]. *)
Record Hooks := {
  input : string;
  isPosting : bool;
  user : option User;
}.

Record InputElem := {
  value : string;
  disabled : bool;
  onChange : string → list Effect;
  onKeyDown : string → list Effect;
}.

Record ButtonElem := {
  button_disabled : bool;
  onClick : list Effect;
}.

Record WizardElem := {
  image_src : string;
  field : InputElem;
  post_button : option ButtonElem;
  spinner : option Z;
}.

(** The component: [None] is the [null] of [if (!user) return null]. *)
Definition CreatePostWizard (h : Hooks) : option WizardElem :=
  if negb (Js.truthy_object (user h)) then None
  else
    u ← user h;
    Some
      {| image_src := profileImageUrl u;
         field :=
           {| value := input h;
              disabled := isPosting h;
              onChange := λ target_value, [SetInput target_value];
              onKeyDown := λ key,
                if String.eqb key "Enter" then
                  PreventDefault ::
                  (if negb (String.eqb (input h) "")
                   then [Mutate (input h)] else [])
                else [] |};
         post_button :=
           if negb (String.eqb (input h) "") && negb (isPosting h)
           then Some {| button_disabled := isPosting h;
                        onClick := [Mutate (input h)] |}
           else None;
         spinner := if isPosting h then Some 24%Z else None |}.

(** *** Delivery of user events to the rendered tree

    The browser delivers a click only to a button that is rendered and
    not disabled, and key and change events only to a field that is not
    disabled (a disabled field cannot hold focus). *)

Inductive UserEvent :=
| Click
| KeyDown (key : string)
| Change (text : string).

Definition dispatch (v : option WizardElem) (ev : UserEvent) : list Effect :=
  match v with
  | None => []
  | Some w =>
      match ev with
      | Click =>
          match post_button w with
          | Some b => if button_disabled b then [] else onClick b
          | None => []
          end
      | KeyDown k =>
          if disabled (field w) then [] else onKeyDown (field w) k
      | Change t =>
          if disabled (field w) then [] else onChange (field w) t
      end
  end.

(** The create calls, and the messages shown, among a list of effects. *)
Definition mutate_calls (fs : list Effect) : list string :=
  omap (λ f, match f with Mutate c => Some c | _ => None end) fs.

Definition toast_messages (fs : list Effect) : list string :=
  omap (λ f, match f with ToastError m => Some m | _ => None end) fs.

Definition input_writes (fs : list Effect) : list string :=
  omap (λ f, match f with SetInput s => Some s | _ => None end) fs.

Definition invalidations (fs : list Effect) : list PromiseUse :=
  omap (λ f, match f with InvalidateGetAll u => Some u | _ => None end) fs.

(** The first-message rule in the words of the specification: a non-empty
    list of messages for [content] makes its first message the one shown. *)
Definition surfaces_first_content_message (e : Trpc.ClientError) : Prop :=
  ∀ m ms, content_errors e = Some (m :: ms) → toast_messages (onError e) = [m].

End Wizard.


(** ** The page as a transition system

    The component re-renders from its current hooks before the next event
    is delivered.  [mutate] belongs to the mutation hook: it sends the
    create call and reports [isLoading] until the call it tracks (the most
    recent one) settles, at which point the hook runs [onSuccess] or
    [onError]. *)

Module Page.

Import Wizard.

Inductive Outcome := Succeeded | Failed (e : Trpc.ClientError).

Record State := {
  wizard : Hooks;
  (** create calls sent and not yet settled, most recent first *)
  inflight : list string;
  (** invalidations whose background refetch has not completed *)
  refetching : nat;
  (** messages shown on the notification surface, oldest first *)
  toasts : list string;
  (** every effect performed so far, oldest first *)
  log : list Effect;
}.

Definition with_wizard (h : Hooks) (p : State) : State :=
  {| wizard := h; inflight := inflight p; refetching := refetching p;
     toasts := toasts p; log := log p |}.

Definition effect_of (f : Effect) (p : State) : State :=
  match f with
  | SetInput s =>
      with_wizard
        {| input := s; isPosting := isPosting (wizard p);
           user := user (wizard p) |} p
  | InvalidateGetAll _ =>
      {| wizard := wizard p; inflight := inflight p;
         refetching := S (refetching p); toasts := toasts p; log := log p |}
  | ToastError m =>
      {| wizard := wizard p; inflight := inflight p;
         refetching := refetching p; toasts := toasts p ++ [m];
         log := log p |}
  | Mutate c =>
      {| wizard := {| input := input (wizard p); isPosting := true;
                      user := user (wizard p) |};
         inflight := c :: inflight p; refetching := refetching p;
         toasts := toasts p; log := log p |}
  | ConsoleLog _ _ | PreventDefault => p
  end.

Definition perform (p : State) (f : Effect) : State :=
  let q := effect_of f p in
  {| wizard := wizard q; inflight := inflight q; refetching := refetching q;
     toasts := toasts q; log := log q ++ [f] |}.

Definition perform_all (p : State) (fs : list Effect) : State :=
  foldl perform p fs.

Definition handler (r : Outcome) : list Effect :=
  match r with
  | Succeeded => onSuccess
  | Failed e => onError e
  end.

(** The hook's bookkeeping once call number [i] has settled. *)
Definition settle (i : nat) (p : State) : State :=
  {| wizard := {| input := input (wizard p);
                  isPosting := match i with
                               | O => false
                               | S _ => isPosting (wizard p)
                               end;
                  user := user (wizard p) |};
     inflight := delete i (inflight p); refetching := refetching p;
     toasts := toasts p; log := log p |}.

Inductive Event :=
| UserDoes (ev : UserEvent)
| Settled (i : nat) (r : Outcome)
| RefetchDone
| IdentityIs (u : option User).

Definition step (p : State) (ev : Event) : State :=
  match ev with
  | UserDoes ue =>
      perform_all p (dispatch (CreatePostWizard (wizard p)) ue)
  | Settled i r =>
      match inflight p !! i with
      | None => p
      | Some _ => settle i (perform_all p (handler r))
      end
  | RefetchDone =>
      {| wizard := wizard p; inflight := inflight p;
         refetching := pred (refetching p); toasts := toasts p;
         log := log p |}
  | IdentityIs u =>
      with_wizard
        {| input := input (wizard p); isPosting := isPosting (wizard p);
           user := u |} p
  end.

Definition run (p : State) (evs : list Event) : State := foldl step p evs.

(** First render: [useState("")], no call sent. *)
Definition init (u : option User) : State :=
  {| wizard := {| input := ""; isPosting := false; user := u |};
     inflight := []; refetching := 0; toasts := []; log := [] |}.

(** The controller is idle, or tracks exactly one call. *)
Definition consistent (p : State) : Prop :=
  (isPosting (wizard p) = false ∧ inflight p = [])
  ∨ (isPosting (wizard p) = true ∧ ∃ c, inflight p = [c]).

(** The two ways of submitting. *)
Definition is_submit (ue : UserEvent) : Prop :=
  ue = Click ∨ ue = KeyDown "Enter".

End Page.


(** ** Concrete inputs used below *)

Module Samples.

Import Wizard.

Definition ada : User := {| profileImageUrl := "/ada.png" |}.

Definition validation_error (messages : list string) : Trpc.ClientError :=
  {| Trpc.message := "Bad request";
     Trpc.data :=
       Some {| Trpc.code := "BAD_REQUEST";
               Trpc.zodError :=
                 Some {| Trpc.formErrors := [];
                         Trpc.fieldErrors := {[ "content" := messages ]} |} |} |}.

Definition too_long_error : Trpc.ClientError :=
  validation_error ["Content too long"; "Only emojis are allowed"].

Definition blank_message_error : Trpc.ClientError :=
  validation_error [""; "Only emojis are allowed"].

Definition rate_limit_error : Trpc.ClientError :=
  {| Trpc.message := "TOO_MANY_REQUESTS"; Trpc.data := None |}.

Definition composing (draft : string) : Page.State :=
  {| Page.wizard := {| input := draft; isPosting := false; user := Some ada |};
     Page.inflight := []; Page.refetching := 0; Page.toasts := [];
     Page.log := [] |}.

Definition posting (draft : string) : Page.State :=
  {| Page.wizard := {| input := draft; isPosting := true; user := Some ada |};
     Page.inflight := [draft]; Page.refetching := 0; Page.toasts := [];
     Page.log := [Mutate draft] |}.

Definition second_post : FeedView.PostWithAuthor :=
  {| FeedView.post :=
       {| FeedView.id := "p2"; FeedView.content := "🎉";
          FeedView.createdAt := 5 |};
     FeedView.author :=
       {| FeedView.username := "bob"; FeedView.profileImageUrl := None |} |}.

End Samples.

(** ** [Home] *)

Module HomePage.

(** Modelled from the spec: the result type of [useUser()] is declared by
    the identity provider, outside this file; it supplies [isLoaded],
    [isSignedIn] and the current user or [null]. *)
Record UseUser := {
  isLoaded : bool;
  isSignedIn : bool;
  user : option Wizard.User;
}.

(** Everything the hooks of one render of the page return.  Both
    [useUser()] calls (the one in [Home], the one in [CreatePostWizard])
    read the same identity, and both [useQuery()] calls the same cache
    entry. *)
Record Env := {
  identity : UseUser;
  draft : string;
  posting : bool;
  posts : FeedView.QueryResult;
}.

Inductive HomeElem :=
| EmptyDiv
| PageLayout (composer : option Wizard.WizardElem) (sign_out : bool)
    (feed : FeedView.FeedElem).

(** The element [Home] returns.  Its own [useQuery()] call, made before
    the identity is looked at, returns nothing the render uses. *)
Definition Home (fromNow : Z → string) (env : Env) : HomeElem :=
  if negb (isLoaded (identity env)) then EmptyDiv
  else
    PageLayout
      (Wizard.CreatePostWizard
         {| Wizard.input := draft env; Wizard.isPosting := posting env;
            Wizard.user := user (identity env) |})
      (isSignedIn (identity env))
      (FeedView.Feed fromNow (posts env)).

(** The identity provider reports a user exactly when signed in. *)
Definition coherent (i : UseUser) : Prop :=
  isSignedIn i = true ↔ is_Some (user i).

End HomePage.

(** ** Counting the outcomes among the events of a run *)

Module Trace.

Import Wizard Page.

Definition is_failure (ev : Event) : bool :=
  match ev with Settled _ (Failed _) => true | _ => false end.

Definition is_success (ev : Event) : bool :=
  match ev with Settled _ Succeeded => true | _ => false end.

(** The effects an event makes the page perform. *)
Definition step_effects (p : State) (ev : Event) : list Effect :=
  match ev with
  | UserDoes ue => dispatch (CreatePostWizard (wizard p)) ue
  | Settled i r =>
      match inflight p !! i with
      | Some _ => handler r
      | None => []
      end
  | RefetchDone | IdentityIs _ => []
  end.

Definition failures (evs : list Event) : nat :=
  length (List.filter is_failure evs).

Definition successes (evs : list Event) : nat :=
  length (List.filter is_success evs).

(** The payload [z] with the messages listed for the field [k] replaced
    by [msgs]. *)
Definition with_field_errors
    (k : string) (msgs : list string) (z : Trpc.ZodFlattened)
    : Trpc.ZodFlattened :=
  {| Trpc.formErrors := Trpc.formErrors z;
     Trpc.fieldErrors := <[k := msgs]> (Trpc.fieldErrors z) |}.

Definition zod_failure (z : Trpc.ZodFlattened) : Trpc.ClientError :=
  {| Trpc.message := "Bad request";
     Trpc.data := Some {| Trpc.code := "BAD_REQUEST";
                          Trpc.zodError := Some z |} |}.

End Trace.

(** * Properties *)

Local Open Scope list_scope.

(** ** Truthiness *)

Lemma truthy_string_true s : Js.truthy_string s = true ↔ s ≠ "".
Proof.
  unfold Js.truthy_string.
  destruct (String.eqb_spec s ""); simpl; split; congruence.
Qed.

Lemma truthy_string_false s : Js.truthy_string s = false ↔ s = "".
Proof.
  unfold Js.truthy_string.
  destruct (String.eqb_spec s ""); simpl; split; congruence.
Qed.

(** ** The feed *)

Section FeedFacts.

Import FeedView.

Variable fromNow : Z → string.

Lemma Feed_loading posts :
  isLoading posts = true → Feed fromNow posts = LoadingPage 64.
Proof. unfold Feed. by intros ->. Qed.

Lemma Feed_absent posts :
  isLoading posts = false → data posts = None →
  Feed fromNow posts = SomethingWentWrong.
Proof. unfold Feed. by intros -> ->. Qed.

Lemma Feed_present posts delivered :
  isLoading posts = false → data posts = Some delivered →
  Feed fromNow posts = PostList (map (post_child fromNow) delivered).
Proof. unfold Feed. by intros -> ->. Qed.

(** On entries that never report loading together with data (the query
    library's own entries are of this kind) the policy reads as in the
    specification. *)
Lemma feed_policy_without_loading_data posts :
  (isLoading posts = true → data posts = None) →
  feed_policy_as_specified fromNow posts.
Proof.
  intros Hlib. unfold feed_policy_as_specified, has_no_data.
  split; [|split].
  - intros [Hl _]. by rewrite Feed_loading.
  - intros [Hl Hd]. by rewrite Feed_absent.
  - intros Hd. destruct (isLoading posts) eqn:Hl.
    + by destruct Hd; apply Hlib.
    + destruct (data posts) as [d|] eqn:E; [|done].
      rewrite (Feed_present _ d) by done. simpl. tauto.
Qed.

(** The decision on any record of the three fields, also one that
    reports loading while it holds data (which no query hook returns):
    the loading flag is tested first and alone. *)
Lemma feed_render_decision posts :
  (is_loading_state (Feed fromNow posts) ↔ isLoading posts = true)
  ∧ (is_failure_state (Feed fromNow posts) ↔
       isLoading posts = false ∧ data posts = None)
  ∧ (isLoading posts = true ∧ Feed fromNow posts = LoadingPage 64
     ∨ isLoading posts = false ∧ data posts = None
       ∧ Feed fromNow posts = SomethingWentWrong
     ∨ isLoading posts = false
       ∧ ∃ delivered, data posts = Some delivered
           ∧ Feed fromNow posts = PostList (map (post_child fromNow) delivered)).
Proof.
  destruct (isLoading posts) eqn:Hl.
  - rewrite Feed_loading by done. simpl. intuition congruence.
  - destruct (data posts) as [d|] eqn:Hd.
    + rewrite (Feed_present _ d) by done. simpl.
      split; [|split]; [intuition congruence..|].
      right; right. eauto.
    + rewrite Feed_absent by done. simpl. intuition congruence.
Qed.

(** C7: for every entry the query hook returns, an entry that is loading
    and has no data renders the loading state, an entry that is not
    loading and has no data renders the generic failure state, and in no
    other case is the loading or the failure state rendered: an entry
    that holds data renders its posts. *)
Theorem feed_render_policy posts :
  loading_has_no_data posts →
  (isLoading posts = true ∧ data posts = None →
     Feed fromNow posts = LoadingPage 64)
  ∧ (isLoading posts = false ∧ data posts = None →
     Feed fromNow posts = SomethingWentWrong)
  ∧ (is_loading_state (Feed fromNow posts) ↔
       isLoading posts = true ∧ data posts = None)
  ∧ (is_failure_state (Feed fromNow posts) ↔
       isLoading posts = false ∧ data posts = None)
  ∧ (data posts ≠ None →
     ∃ delivered, data posts = Some delivered
       ∧ Feed fromNow posts = PostList (map (post_child fromNow) delivered)).
Proof.
  intros Hhook. unfold loading_has_no_data in Hhook.
  destruct (isLoading posts) eqn:Hl.
  - rewrite Feed_loading by done. rewrite (Hhook eq_refl). simpl.
    split_and!; intuition congruence.
  - destruct (data posts) as [d|] eqn:Hd.
    + rewrite (Feed_present _ d) by done. simpl.
      split_and!; try (intuition congruence).
      intros _. by exists d.
    + rewrite Feed_absent by done. simpl.
      split_and!; intuition congruence.
Qed.

(** C8: when the query has delivered a sequence and the feed renders it,
    the children are the post views of the delivered elements, one per
    element, at the same positions, keyed by the post id: nothing is
    re-sorted or dropped. *)
Theorem feed_renders_delivered_order posts delivered :
  data posts = Some delivered →
  isLoading posts = false →
  ∃ children,
    Feed fromNow posts = PostList children
    ∧ length children = length delivered
    ∧ (∀ i : nat, children !! i = post_child fromNow <$> delivered !! i)
    ∧ map key children = map (λ p, id (post p)) delivered
    ∧ map (λ c, body (elem c)) children
      = map (λ p, content (post p)) delivered.
Proof.
  intros Hd Hl. exists (map (post_child fromNow) delivered).
  split; [by apply Feed_present|].
  split; [by rewrite length_map|].
  split; [intros i; apply list_lookup_fmap|].
  split; by rewrite map_map.
Qed.

(** C9: an entry that has finished loading with the empty sequence renders
    the empty post list, and not the failure state that absent data
    renders. *)
Theorem feed_empty_is_not_failure (err : bool) :
  Feed fromNow {| data := Some []; isLoading := false; isError := err |}
    = PostList []
  ∧ ¬ is_failure_state
        (Feed fromNow {| data := Some []; isLoading := false; isError := err |})
  ∧ Feed fromNow {| data := None; isLoading := false; isError := err |}
    = SomethingWentWrong.
Proof. split; [done|]. split; [|done]. simpl. tauto. Qed.

End FeedFacts.

(** Outside the results of the query hook, on a record that reports
    loading while it holds data, the loading state is rendered although
    data is present. *)
Lemma feed_policy_as_specified_fails :
  ¬ FeedView.feed_policy_as_specified
      FeedView.now_label FeedView.refetching_entry.
Proof.
  intros (_ & _ & H).
  destruct H as [Hload _]; [discriminate|].
  apply Hload. exact I.
Qed.

Lemma feed_render_policy_witness :
  FeedView.Feed FeedView.now_label
    {| FeedView.data := None; FeedView.isLoading := true;
       FeedView.isError := false |}
  = FeedView.LoadingPage 64
  ∧ FeedView.Feed FeedView.now_label
      {| FeedView.data := None; FeedView.isLoading := false;
         FeedView.isError := true |}
    = FeedView.SomethingWentWrong.
Proof.
  split.
  - apply (feed_render_policy FeedView.now_label
             {| FeedView.data := None; FeedView.isLoading := true;
                FeedView.isError := false |}).
    + intros _. reflexivity.
    + split; reflexivity.
  - apply (feed_render_policy FeedView.now_label
             {| FeedView.data := None; FeedView.isLoading := false;
                FeedView.isError := true |}).
    + intros H. discriminate H.
    + split; reflexivity.
Defined.

(** A feed with a repeated post and posts out of time order is rendered as
    delivered. *)
Lemma feed_renders_delivered_order_witness :
  ∃ children,
    FeedView.Feed FeedView.now_label
      {| FeedView.data :=
           Some [Samples.second_post; FeedView.sample_post;
                 Samples.second_post];
         FeedView.isLoading := false; FeedView.isError := false |}
    = FeedView.PostList children
    ∧ map FeedView.key children = ["p2"; "p1"; "p2"].
Proof.
  destruct (feed_renders_delivered_order FeedView.now_label
              {| FeedView.data :=
                   Some [Samples.second_post; FeedView.sample_post;
                         Samples.second_post];
                 FeedView.isLoading := false; FeedView.isError := false |}
              [Samples.second_post; FeedView.sample_post;
               Samples.second_post] eq_refl eq_refl)
    as (children & HF & _ & _ & Hk & _).
  exists children. split; [exact HF | exact Hk].
Defined.

(** ** Effects of a handler on the page *)

Section PerformFacts.

Import Wizard Page.

Lemma log_perform_all fs : ∀ p, log (perform_all p fs) = log p ++ fs.
Proof.
  induction fs as [|f fs IH]; intros p; simpl.
  - by rewrite app_nil_r.
  - unfold perform_all in IH. rewrite IH.
    destruct f; simpl; by rewrite <- app_assoc.
Qed.

Lemma toasts_perform_all fs :
  ∀ p, toasts (perform_all p fs) = toasts p ++ toast_messages fs.
Proof.
  induction fs as [|f fs IH]; intros p; simpl.
  - by rewrite app_nil_r.
  - unfold perform_all in IH. rewrite IH.
    destruct f; simpl.
    all: try reflexivity.
    by rewrite <- app_assoc.
Qed.

Lemma input_perform_all fs :
  ∀ p, input (wizard (perform_all p fs))
       = default (input (wizard p)) (last (input_writes fs)).
Proof.
  induction fs as [|f fs IH]; intros p; simpl; [done|].
  unfold perform_all in IH. rewrite IH.
  destruct f; simpl.
  all: try reflexivity.
  destruct (input_writes fs) as [|w ws] eqn:E; simpl; [done|].
  by rewrite last_cons; destruct (last ws).
Qed.

Lemma inflight_perform_all fs :
  ∀ p, inflight (perform_all p fs) = reverse (mutate_calls fs) ++ inflight p.
Proof.
  induction fs as [|f fs IH]; intros p; simpl; [done|].
  unfold perform_all in IH. rewrite IH.
  destruct f; simpl.
  all: try reflexivity.
  by rewrite reverse_cons, <- app_assoc.
Qed.

Lemma refetching_perform_all fs :
  ∀ p, refetching (perform_all p fs)
       = (length (invalidations fs) + refetching p)%nat.
Proof.
  induction fs as [|f fs IH]; intros p; simpl; [done|].
  unfold perform_all in IH. rewrite IH.
  destruct f; simpl; lia.
Qed.

Lemma user_perform_all fs :
  ∀ p, user (wizard (perform_all p fs)) = user (wizard p).
Proof.
  induction fs as [|f fs IH]; intros p; simpl; [done|].
  unfold perform_all in IH. rewrite IH. by destruct f.
Qed.

End PerformFacts.
(** ** The error handler *)

Section ErrorFacts.

Import Wizard Page.

Lemma onError_first_message e m ms :
  content_errors e = Some (m :: ms) → m ≠ "" →
  onError e = [ConsoleLog "zodError" (Trpc.data e); ToastError m].
Proof.
  intros He Hm. unfold onError. rewrite He. simpl.
  by apply truthy_string_true in Hm as ->.
Qed.

Lemma onError_fallback e :
  (∀ m ms, content_errors e = Some (m :: ms) → m = "") →
  onError e
  = [ConsoleLog "zodError" (Trpc.data e); ToastError fallback_message].
Proof.
  intros He. unfold onError.
  destruct (content_errors e) as [[|m ms]|] eqn:E; simpl; try done.
  by rewrite (He m ms eq_refl).
Qed.

(** Whatever the error, the handler logs once and shows one message. *)
Lemma onError_shape e :
  ∃ msg, onError e = [ConsoleLog "zodError" (Trpc.data e); ToastError msg].
Proof.
  unfold onError.
  destruct (content_errors e ≫= _) as [m|]; [|by eauto].
  destruct (Js.truthy_string m); eauto.
Qed.

Lemma step_failed_toasts p i c e :
  inflight p !! i = Some c →
  toasts (step p (Settled i (Failed e)))
  = toasts p ++ toast_messages (onError e).
Proof.
  intros Hi. unfold step. rewrite Hi.
  exact (toasts_perform_all (onError e) p).
Qed.

End ErrorFacts.

Section HandlerFacts.

Import Wizard Page.

Lemma input_writes_onError e : input_writes (onError e) = [].
Proof. by destruct (onError_shape e) as [msg ->]. Qed.

Lemma input_settle i p : input (wizard (settle i p)) = input (wizard p).
Proof. reflexivity. Qed.

Lemma step_failed_input p i e :
  input (wizard (step p (Settled i (Failed e)))) = input (wizard p).
Proof.
  unfold step. destruct (inflight p !! i); [|done].
  rewrite input_settle. unfold handler.
  by rewrite input_perform_all, input_writes_onError.
Qed.

Lemma input_writes_dispatch h ue :
  (∀ t, ue ≠ Change t) →
  input_writes (dispatch (CreatePostWizard h) ue) = [].
Proof.
  intros Hue. unfold CreatePostWizard.
  destruct (user h) as [u|]; simpl; [|done].
  destruct ue as [|k|t]; simpl.
  - destruct (negb (input h =? "")%string && negb (isPosting h)) eqn:E;
      simpl; [|done].
    by destruct (isPosting h).
  - destruct (isPosting h); [done|].
    destruct (k =? "Enter")%string; [|done].
    by destruct (negb (input h =? "")%string).
  - by destruct (Hue t).
Qed.

Lemma step_submit_input p ue :
  (∀ t, ue ≠ Change t) →
  input (wizard (step p (UserDoes ue))) = input (wizard p).
Proof.
  intros Hue. unfold step.
  by rewrite input_perform_all, input_writes_dispatch.
Qed.

(** C1: when a create call settles successfully, the handler performs
    exactly two effects: it sets the draft to the empty string and then
    calls invalidate on the feed query, discarding the promise.  Once the
    handler has run the draft is empty, the call is settled and the
    refetch it started is still outstanding; in the handler nothing but
    the clearing of the draft precedes the invalidate call. *)
Theorem create_success_clears_then_invalidates p i c :
  inflight p !! i = Some c →
  log (step p (Settled i Succeeded))
    = log p ++ [SetInput ""; InvalidateGetAll Discarded]
  ∧ input (wizard (step p (Settled i Succeeded))) = ""
  ∧ refetching (step p (Settled i Succeeded)) = S (refetching p)
  ∧ inflight (step p (Settled i Succeeded)) = delete i (inflight p)
  ∧ toasts (step p (Settled i Succeeded)) = toasts p
  ∧ (∀ pre u post,
       handler Succeeded = pre ++ InvalidateGetAll u :: post →
       u = Discarded ∧ pre = [SetInput ""] ∧ post = []).
Proof.
  intros Hi. unfold step. rewrite Hi.
  split_and!; try reflexivity.
  - exact (log_perform_all onSuccess p).
  - intros pre u post Heq. unfold handler, onSuccess in Heq.
    destruct pre as [|a [|b pre]]; simpl in Heq.
    + discriminate.
    + by injection Heq as <- <- <-.
    + destruct pre; discriminate.
Qed.

Lemma create_success_clears_then_invalidates_witness :
  log (step (Samples.posting "👍") (Settled 0 Succeeded))
    = [Mutate "👍"; SetInput ""; InvalidateGetAll Discarded]
  ∧ input (wizard (step (Samples.posting "👍") (Settled 0 Succeeded))) = ""
  ∧ refetching (step (Samples.posting "👍") (Settled 0 Succeeded)) = 1%nat
  ∧ inflight (step (Samples.posting "👍") (Settled 0 Succeeded)) = [].
Proof.
  destruct (create_success_clears_then_invalidates
              (Samples.posting "👍") 0 "👍" eq_refl)
    as (Hlog & Hin & Hre & Hfl & _).
  repeat split; assumption.
Defined.

End HandlerFacts.

Section ErrorClaims.

Import Wizard Page.

(** C2, as the code decides it: on a create failure whose payload lists
    messages for [content], the first of them being a non-empty string,
    the one message shown to the user is exactly that first message. *)
Theorem validation_error_shows_first_message e m ms :
  content_errors e = Some (m :: ms) →
  m ≠ "" →
  toast_messages (onError e) = [m]
  ∧ ∀ p i c, inflight p !! i = Some c →
      toasts (step p (Settled i (Failed e))) = toasts p ++ [m].
Proof.
  intros He Hm. pose proof (onError_first_message e m ms He Hm) as Hon.
  split.
  - by rewrite Hon.
  - intros p i c Hi. rewrite (step_failed_toasts p i c e Hi). by rewrite Hon.
Qed.

Lemma validation_error_shows_first_message_witness :
  toast_messages (onError Samples.too_long_error) = ["Content too long"]
  ∧ toasts (step (Samples.posting "👍👍👍")
              (Settled 0 (Failed Samples.too_long_error)))
    = ["Content too long"].
Proof.
  destruct (validation_error_shows_first_message Samples.too_long_error
              "Content too long" ["Only emojis are allowed"]) as [Ht Hs].
  - vm_compute. reflexivity.
  - discriminate.
  - split; [exact Ht|].
    exact (Hs (Samples.posting "👍👍👍") 0%nat "👍👍👍" eq_refl).
Defined.

(** C3: on a create failure that carries no non-empty list of messages
    for [content] (no payload, no validation error, no entry for the
    field, or an empty list), the one message shown to the user is the
    fallback string, and nothing else is shown. *)
Theorem other_error_shows_fallback e :
  (¬ ∃ m ms, content_errors e = Some (m :: ms)) →
  fallback_message = "Too many recent posts! Try again later."
  ∧ toast_messages (onError e) = [fallback_message]
  ∧ ∀ p i c, inflight p !! i = Some c →
      toasts (step p (Settled i (Failed e))) = toasts p ++ [fallback_message].
Proof.
  intros He.
  assert (Hon : onError e
                = [ConsoleLog "zodError" (Trpc.data e);
                   ToastError fallback_message]).
  { apply onError_fallback. intros m ms E. destruct He. eauto. }
  split; [reflexivity|]. split.
  - by rewrite Hon.
  - intros p i c Hi. rewrite (step_failed_toasts p i c e Hi). by rewrite Hon.
Qed.

Lemma other_error_shows_fallback_witness :
  toast_messages (onError Samples.rate_limit_error)
    = ["Too many recent posts! Try again later."]
  ∧ toasts (step (Samples.posting "👍")
              (Settled 0 (Failed Samples.rate_limit_error)))
    = ["Too many recent posts! Try again later."].
Proof.
  destruct (other_error_shows_fallback Samples.rate_limit_error)
    as (_ & Ht & Hs).
  - intros (m & ms & E). discriminate E.
  - split; [exact Ht|].
    exact (Hs (Samples.posting "👍") 0%nat "👍" eq_refl).
Defined.

(** C4: the error handler never writes the draft.  Whatever the error,
    the draft after the failure has been handled is the draft before it,
    and a draft that was submitted (by click or by Enter) and then failed
    is still the draft the user composed. *)
Theorem create_failure_keeps_draft p i e :
  input_writes (onError e) = []
  ∧ input (wizard (step p (Settled i (Failed e)))) = input (wizard p)
  ∧ input (wizard (run p [UserDoes Click; Settled 0 (Failed e)]))
    = input (wizard p)
  ∧ input (wizard (run p [UserDoes (KeyDown "Enter"); Settled 0 (Failed e)]))
    = input (wizard p).
Proof.
  split_and!.
  - apply input_writes_onError.
  - apply step_failed_input.
  - unfold run. cbn [foldl].
    rewrite step_failed_input. by apply step_submit_input.
  - unfold run. cbn [foldl].
    rewrite step_failed_input. by apply step_submit_input.
Qed.

End ErrorClaims.

(** C2, as stated, fails when the first listed message is the empty
    string: the fallback is shown instead of that message. *)
Lemma blank_first_message_shows_fallback :
  ¬ Wizard.surfaces_first_content_message Samples.blank_message_error.
Proof.
  intros H.
  specialize (H "" ["Only emojis are allowed"]).
  assert (E : Wizard.content_errors Samples.blank_message_error
              = Some [""; "Only emojis are allowed"])
    by (vm_compute; reflexivity).
  specialize (H E). vm_compute in H. discriminate H.
Qed.

(** ** Submitting *)

Section SubmitFacts.

Import Wizard Page.

Lemma dispatch_pending h ue :
  isPosting h = true → dispatch (CreatePostWizard h) ue = [].
Proof.
  intros Hp. unfold CreatePostWizard.
  destruct (user h) as [u|]; simpl; [|done].
  rewrite Hp, andb_false_r. by destruct ue.
Qed.

Lemma dispatch_signed_out h ue :
  user h = None → dispatch (CreatePostWizard h) ue = [].
Proof. intros Hu. unfold CreatePostWizard. by rewrite Hu. Qed.

Lemma dispatch_click h u :
  user h = Some u →
  dispatch (CreatePostWizard h) Click
  = if negb (input h =? "")%string && negb (isPosting h)
    then [Mutate (input h)] else [].
Proof.
  intros Hu. unfold CreatePostWizard. rewrite Hu. simpl.
  destruct (negb (input h =? "")%string && negb (isPosting h)) eqn:E;
    simpl; [|done].
  apply andb_true_iff in E as [_ E]. apply negb_true_iff in E. by rewrite E.
Qed.

Lemma dispatch_enter h u :
  user h = Some u →
  dispatch (CreatePostWizard h) (KeyDown "Enter")
  = if isPosting h then []
    else PreventDefault ::
         (if negb (input h =? "")%string then [Mutate (input h)] else []).
Proof. intros Hu. unfold CreatePostWizard. by rewrite Hu. Qed.

(** The key handler itself tests the key and the draft only; that it is
    not reached while a call is pending is the doing of [disabled]. *)
Lemma onKeyDown_closure h w :
  CreatePostWizard h = Some w →
  disabled (field w) = isPosting h
  ∧ onKeyDown (field w) "Enter"
    = PreventDefault ::
      (if negb (input h =? "")%string then [Mutate (input h)] else []).
Proof.
  unfold CreatePostWizard. destruct (user h); simpl; [|done].
  by intros [= <-].
Qed.

Lemma step_user_pending p ue :
  isPosting (wizard p) = true → step p (UserDoes ue) = p.
Proof. intros Hp. unfold step. by rewrite dispatch_pending. Qed.

Lemma step_user_signed_out p ue :
  user (wizard p) = None → step p (UserDoes ue) = p.
Proof. intros Hu. unfold step. by rewrite dispatch_signed_out. Qed.

Lemma consistent_init u : consistent (init u).
Proof. by left. Qed.

Lemma consistent_step p ev : consistent p → consistent (step p ev).
Proof.
  intros Hc. destruct ev as [ue|i r| |u].
  - destruct (isPosting (wizard p)) eqn:Hp.
    { by rewrite step_user_pending. }
    destruct (user (wizard p)) as [u|] eqn:Hu.
    2:{ by rewrite step_user_signed_out. }
    destruct Hc as [[_ Hfl]|[Hp' _]]; [|congruence].
    unfold step. destruct ue as [|k|t].
    + rewrite (dispatch_click _ u Hu), Hp.
      destruct (negb _); simpl; [right|left]; simpl; rewrite ?Hfl; eauto.
    + unfold CreatePostWizard. rewrite Hu. simpl. rewrite Hp.
      destruct (k =? "Enter")%string; simpl; [|by left].
      destruct (negb _); simpl; [right|left]; simpl; rewrite ?Hfl; eauto.
    + unfold CreatePostWizard. rewrite Hu. simpl. rewrite Hp. simpl.
      by left.
  - unfold step. destruct (inflight p !! i) as [c|] eqn:Hi; [|done].
    destruct Hc as [[_ Hfl]|[Hp [c' Hfl]]].
    { by rewrite Hfl in Hi. }
    rewrite Hfl in Hi. destruct i as [|i]; [|done].
    left. unfold consistent, settle. cbn [wizard isPosting inflight].
    split; [done|]. rewrite inflight_perform_all.
    assert (mutate_calls (handler r) = []) as ->.
    { destruct r as [|e]; [done|]. unfold handler.
      by destruct (onError_shape e) as [? ->]. }
    by rewrite Hfl.
  - exact Hc.
  - exact Hc.
Qed.

Lemma consistent_run evs : ∀ p, consistent p → consistent (run p evs).
Proof.
  induction evs as [|ev evs IH]; intros p Hc; [done|].
  apply IH. by apply consistent_step.
Qed.

Lemma mutate_calls_app fs gs :
  mutate_calls (fs ++ gs) = mutate_calls fs ++ mutate_calls gs.
Proof. apply omap_app. Qed.

Lemma mutate_calls_submit h u s :
  user h = Some u → is_submit s →
  mutate_calls (dispatch (CreatePostWizard h) s)
  = if negb (input h =? "")%string && negb (isPosting h)
    then [input h] else [].
Proof.
  intros Hu [-> | ->].
  - rewrite (dispatch_click _ u Hu). by destruct (_ && _).
  - rewrite (dispatch_enter _ u Hu).
    destruct (isPosting h); [by rewrite andb_false_r|].
    rewrite andb_true_r. by destruct (negb _).
Qed.

End SubmitFacts.

Section SubmitClaims.

Import Wizard Page.

Lemma isPosting_perform_all fs :
  ∀ p, isPosting (wizard (perform_all p fs))
       = match mutate_calls fs with
         | [] => isPosting (wizard p)
         | _ :: _ => true
         end.
Proof.
  induction fs as [|f fs IH]; intros p; simpl; [done|].
  unfold perform_all in IH. rewrite IH.
  destruct f; simpl; try reflexivity.
  by destruct (mutate_calls fs).
Qed.

Lemma submit_once p u s :
  user (wizard p) = Some u →
  isPosting (wizard p) = false →
  input (wizard p) ≠ "" →
  is_submit s →
  mutate_calls (dispatch (CreatePostWizard (wizard p)) s) = [input (wizard p)].
Proof.
  intros Hu Hp Hin Hs. rewrite (mutate_calls_submit _ u s Hu Hs), Hp.
  apply truthy_string_true in Hin. unfold Js.truthy_string in Hin.
  by rewrite Hin.
Qed.

(** C5: while a create call is pending every user event, submit included,
    leaves the page as it is; on every run of the page from its first
    render at most one create call is in flight; and submitting twice in
    succession with a non-empty draft sends exactly one create call, for
    that draft. *)
Theorem one_create_in_flight :
  (∀ p ue, isPosting (wizard p) = true → step p (UserDoes ue) = p)
  ∧ (∀ u evs, (length (inflight (run (init u) evs)) ≤ 1)%nat)
  ∧ (∀ p u s1 s2,
       user (wizard p) = Some u →
       isPosting (wizard p) = false →
       input (wizard p) ≠ "" →
       is_submit s1 → is_submit s2 →
       mutate_calls (log (run p [UserDoes s1; UserDoes s2]))
         = mutate_calls (log p) ++ [input (wizard p)]
       ∧ inflight (run p [UserDoes s1; UserDoes s2])
         = input (wizard p) :: inflight p).
Proof.
  split_and!.
  - apply step_user_pending.
  - intros u evs.
    destruct (consistent_run evs (init u) (consistent_init u))
      as [[_ ->]|[_ [c ->]]]; simpl; lia.
  - intros p u s1 s2 Hu Hp Hin Hs1 Hs2.
    pose proof (submit_once p u s1 Hu Hp Hin Hs1) as Hm.
    unfold run. cbn [foldl].
    rewrite (step_user_pending (step p (UserDoes s1)) s2).
    2:{ unfold step. by rewrite isPosting_perform_all, Hm. }
    unfold step. split.
    + by rewrite log_perform_all, mutate_calls_app, Hm.
    + by rewrite inflight_perform_all, Hm.
Qed.

Lemma one_create_in_flight_witness :
  step (Samples.posting "👍") (UserDoes (KeyDown "Enter"))
    = Samples.posting "👍"
  ∧ step (Samples.posting "👍") (UserDoes Click) = Samples.posting "👍"
  ∧ mutate_calls
      (log (run (Samples.composing "👍")
              [UserDoes (KeyDown "Enter"); UserDoes (KeyDown "Enter")]))
    = ["👍"]
  ∧ mutate_calls
      (log (run (Samples.composing "👍")
              [UserDoes Click; UserDoes (KeyDown "Enter")]))
    = ["👍"].
Proof.
  destruct one_create_in_flight as (Hnoop & _ & Htwice).
  split_and!.
  - apply Hnoop. reflexivity.
  - apply Hnoop. reflexivity.
  - apply (Htwice (Samples.composing "👍") Samples.ada
             (KeyDown "Enter") (KeyDown "Enter"));
      [reflexivity | reflexivity | discriminate | by right | by right].
  - apply (Htwice (Samples.composing "👍") Samples.ada
             Click (KeyDown "Enter"));
      [reflexivity | reflexivity | discriminate | by left | by right].
Defined.

(** C6: with the draft field rendered, Enter sends the same create calls
    as the submit button: one call carrying the draft when the draft is
    non-empty and no call is pending, none otherwise; either way the page
    ends in the same state.  When the field can take the key (it is not
    disabled), the first thing the handler does is prevent the key's
    default action. *)
Theorem enter_submits_like_button p u :
  user (wizard p) = Some u →
  mutate_calls (dispatch (CreatePostWizard (wizard p)) (KeyDown "Enter"))
    = mutate_calls (dispatch (CreatePostWizard (wizard p)) Click)
  ∧ dispatch (CreatePostWizard (wizard p)) Click
    = (if negb (input (wizard p) =? "")%string && negb (isPosting (wizard p))
       then [Mutate (input (wizard p))] else [])
  ∧ (isPosting (wizard p) = false →
     head (dispatch (CreatePostWizard (wizard p)) (KeyDown "Enter"))
       = Some PreventDefault)
  ∧ wizard (step p (UserDoes (KeyDown "Enter")))
    = wizard (step p (UserDoes Click))
  ∧ inflight (step p (UserDoes (KeyDown "Enter")))
    = inflight (step p (UserDoes Click))
  ∧ toasts (step p (UserDoes (KeyDown "Enter")))
    = toasts (step p (UserDoes Click))
  ∧ refetching (step p (UserDoes (KeyDown "Enter")))
    = refetching (step p (UserDoes Click)).
Proof.
  intros Hu. unfold step.
  rewrite (dispatch_enter _ u Hu), (dispatch_click _ u Hu).
  destruct (isPosting (wizard p)) eqn:Hp.
  - rewrite andb_false_r. by split_and!.
  - rewrite andb_true_r. by destruct (negb _).
Qed.

Lemma enter_submits_like_button_witness :
  dispatch (CreatePostWizard (wizard (Samples.composing "👍"))) Click
    = [Mutate "👍"]
  ∧ mutate_calls
      (dispatch (CreatePostWizard (wizard (Samples.composing "👍")))
         (KeyDown "Enter"))
    = ["👍"]
  ∧ head (dispatch (CreatePostWizard (wizard (Samples.composing "")))
            (KeyDown "Enter"))
    = Some PreventDefault.
Proof.
  destruct (enter_submits_like_button (Samples.composing "👍") Samples.ada
              eq_refl) as (He & Hc & _).
  destruct (enter_submits_like_button (Samples.composing "") Samples.ada
              eq_refl) as (_ & _ & Hpd & _).
  split_and!.
  - exact Hc.
  - rewrite He, Hc. reflexivity.
  - apply Hpd. reflexivity.
Defined.

(** C10: without a current user the component renders nothing, so there
    is no field, no button and no spinner; no user event reaches a
    handler, and the page is left as it is. *)
Theorem signed_out_renders_nothing p :
  user (wizard p) = None →
  CreatePostWizard (wizard p) = None
  ∧ (∀ ue, dispatch (CreatePostWizard (wizard p)) ue = [])
  ∧ (∀ ue, step p (UserDoes ue) = p).
Proof.
  intros Hu. split_and!.
  - unfold CreatePostWizard. by rewrite Hu.
  - intros ue. by apply dispatch_signed_out.
  - intros ue. by apply step_user_signed_out.
Qed.

Lemma signed_out_renders_nothing_witness :
  CreatePostWizard (wizard (init None)) = None
  ∧ step (init None) (UserDoes (KeyDown "Enter")) = init None
  ∧ step (init None) (UserDoes (Change "👍")) = init None.
Proof.
  destruct (signed_out_renders_nothing (init None) eq_refl)
    as (Hr & _ & Hs).
  split_and!; [exact Hr | apply Hs | apply Hs].
Defined.

End SubmitClaims.

(** * Further properties of the page *)

(** ** [PostView] and [Feed] *)

Section FeedExtras.

Import FeedView.

(** X1: when the delivered posts have pairwise distinct ids, the keys of
    the rendered children are pairwise distinct. *)
Theorem feed_keys_distinct fromNow posts delivered :
  data posts = Some delivered →
  isLoading posts = false →
  NoDup (map (λ p, id (post p)) delivered) →
  ∃ children,
    Feed fromNow posts = PostList children ∧ NoDup (map key children).
Proof.
  intros Hd Hl Hnd. exists (map (post_child fromNow) delivered).
  split; [by apply Feed_present|].
  by rewrite map_map.
Qed.

Lemma feed_keys_distinct_witness :
  ∃ children,
    Feed now_label
      {| data := Some [Samples.second_post; sample_post];
         isLoading := false; isError := false |}
    = PostList children
    ∧ NoDup (map key children).
Proof.
  apply (feed_keys_distinct now_label
           {| data := Some [Samples.second_post; sample_post];
              isLoading := false; isError := false |}
           [Samples.second_post; sample_post] eq_refl eq_refl).
  apply NoDup_cons. split.
  - intros Hin. apply list_elem_of_singleton in Hin. discriminate Hin.
  - apply NoDup_singleton.
Defined.

(** X2: the feed never looks at the error flag: two entries that agree
    on [isLoading] and [data] render the same, so an entry whose refetch
    failed but which still holds data keeps showing its posts. *)
Theorem feed_ignores_error_flag fromNow posts posts' :
  isLoading posts = isLoading posts' →
  data posts = data posts' →
  Feed fromNow posts = Feed fromNow posts'.
Proof. unfold Feed. by intros -> ->. Qed.

Lemma feed_ignores_error_flag_witness :
  Feed now_label
    {| data := Some [sample_post]; isLoading := false; isError := true |}
  = Feed now_label
      {| data := Some [sample_post]; isLoading := false; isError := false |}.
Proof.
  apply (feed_ignores_error_flag now_label
           {| data := Some [sample_post]; isLoading := false;
              isError := true |}
           {| data := Some [sample_post]; isLoading := false;
              isError := false |}); reflexivity.
Defined.

(** X3: rendering distributes over concatenation of the delivered
    sequence: the children for [l1 ++ l2] are the children for [l1]
    followed by the children for [l2].  In particular a post delivered
    in front of the others becomes the first child and leaves the other
    children as they were. *)
Theorem feed_of_concatenation fromNow l1 l2 c1 c2 (e e1 e2 : bool) :
  Feed fromNow {| data := Some l1; isLoading := false; isError := e1 |}
    = PostList c1 →
  Feed fromNow {| data := Some l2; isLoading := false; isError := e2 |}
    = PostList c2 →
  Feed fromNow
    {| data := Some (l1 ++ l2); isLoading := false; isError := e |}
    = PostList (c1 ++ c2).
Proof.
  unfold Feed. simpl. intros [= <-] [= <-]. by rewrite map_app.
Qed.

Lemma feed_of_concatenation_witness :
  Feed now_label
    {| data := Some ([Samples.second_post] ++ [sample_post]);
       isLoading := false; isError := false |}
  = PostList ([post_child now_label Samples.second_post]
              ++ [post_child now_label sample_post]).
Proof.
  apply (feed_of_concatenation now_label [Samples.second_post] [sample_post]
           [post_child now_label Samples.second_post]
           [post_child now_label sample_post] false false false);
    reflexivity.
Defined.

(** X4: the links of a post view determine the post and its author: two
    views link to the same post page only for equal post ids, and to the
    same profile page only for equal usernames. *)
Theorem post_links_determine_post fromNow p q :
  (post_href (PostView fromNow p) = post_href (PostView fromNow q) →
   id (post p) = id (post q))
  ∧ (author_href (PostView fromNow p) = author_href (PostView fromNow q) →
     username (author p) = username (author q)).
Proof.
  split; simpl; intros H.
  - by simplify_eq.
  - by simplify_eq.
Qed.

End FeedExtras.

(** ** The rendered composer *)

Section ComposerExtras.

Import Wizard Page.

Lemma composer_affordances_aux h w :
  CreatePostWizard h = Some w →
  (is_Some (spinner w) ↔ isPosting h = true)
  ∧ (disabled (field w) = true ↔ isPosting h = true).
Proof.
  unfold CreatePostWizard. destruct (user h) as [u|]; simpl; [|done].
  intros [= <-]. simpl. split; [|done].
  destruct (isPosting h); split; try done; try (by intros [? ?]); eauto.
Qed.

(** X5: in every rendered composer the submit button and the spinner
    never appear together; the spinner is there exactly when the field is
    disabled; and a button that is rendered is enabled, sits beside an
    enabled field, and submits the non-empty text the field shows. *)
Theorem composer_affordances h w :
  CreatePostWizard h = Some w →
  value (field w) = input h
  ∧ (is_Some (spinner w) ↔ disabled (field w) = true)
  ∧ (is_Some (post_button w) → spinner w = None)
  ∧ (∀ b, post_button w = Some b →
       button_disabled b = false
       ∧ disabled (field w) = false
       ∧ value (field w) ≠ ""
       ∧ onClick b = [Mutate (value (field w))]).
Proof.
  unfold CreatePostWizard. destruct (user h) as [u|]; simpl; [|done].
  intros [= <-]. simpl.
  destruct (isPosting h) eqn:Hp; rewrite ?andb_false_r, ?andb_true_r.
  - by split_and!.
  - split_and!; try done.
    intros b. destruct (negb _) eqn:Hin; [|done].
    intros [= <-]. simpl. split_and!; try done.
    by apply truthy_string_true.
Qed.

Lemma composer_affordances_witness :
  ∃ w, CreatePostWizard (wizard (Samples.composing "👍")) = Some w
       ∧ value (field w) = "👍"
       ∧ spinner w = None
       ∧ ∃ b, post_button w = Some b ∧ onClick b = [Mutate "👍"].
Proof.
  destruct (CreatePostWizard (wizard (Samples.composing "👍")))
    as [w|] eqn:E; [|discriminate E].
  destruct (composer_affordances (wizard (Samples.composing "👍")) w E)
    as (Hv & _ & Hs & Hb).
  exists w. split; [reflexivity|]. split; [exact Hv|].
  injection E as <-. simpl.
  split; [reflexivity|]. eexists. split; reflexivity.
Defined.

(** X6: a key other than Enter does nothing in the field: its default
    action is not prevented, nothing is submitted, and the page is left
    as it is. *)
Theorem other_keys_do_nothing p k :
  k ≠ "Enter" →
  dispatch (CreatePostWizard (wizard p)) (KeyDown k) = []
  ∧ step p (UserDoes (KeyDown k)) = p.
Proof.
  intros Hk.
  assert (dispatch (CreatePostWizard (wizard p)) (KeyDown k) = []) as Hd.
  { unfold CreatePostWizard. destruct (user (wizard p)); simpl; [|done].
    destruct (isPosting (wizard p)); [done|].
    by apply String.eqb_neq in Hk as ->. }
  split; [exact Hd|]. unfold step. by rewrite Hd.
Qed.

Lemma other_keys_do_nothing_witness :
  dispatch (CreatePostWizard (wizard (Samples.composing "👍")))
    (KeyDown "Tab") = []
  ∧ step (Samples.composing "👍") (UserDoes (KeyDown "enter"))
    = Samples.composing "👍".
Proof.
  split.
  - apply (other_keys_do_nothing (Samples.composing "👍") "Tab").
    discriminate.
  - apply (other_keys_do_nothing (Samples.composing "👍") "enter").
    discriminate.
Defined.

(** X7: with an empty draft, Enter in the enabled field has its default
    action prevented and submits nothing, and there is no button to
    click: nothing is sent and draft, pending state and messages stay as
    they are. *)
Theorem empty_draft_is_not_submitted p u :
  user (wizard p) = Some u →
  isPosting (wizard p) = false →
  input (wizard p) = "" →
  dispatch (CreatePostWizard (wizard p)) (KeyDown "Enter") = [PreventDefault]
  ∧ dispatch (CreatePostWizard (wizard p)) Click = []
  ∧ wizard (step p (UserDoes (KeyDown "Enter"))) = wizard p
  ∧ inflight (step p (UserDoes (KeyDown "Enter"))) = inflight p
  ∧ step p (UserDoes Click) = p.
Proof.
  intros Hu Hp Hin. unfold step.
  rewrite (dispatch_enter _ u Hu), (dispatch_click _ u Hu), Hp, Hin.
  simpl. by destruct p as [[? ? ?] ? ? ? ?].
Qed.

Lemma empty_draft_is_not_submitted_witness :
  dispatch (CreatePostWizard (wizard (Samples.composing "")))
    (KeyDown "Enter") = [PreventDefault]
  ∧ step (Samples.composing "") (UserDoes Click) = Samples.composing "".
Proof.
  destruct (empty_draft_is_not_submitted (Samples.composing "") Samples.ada
              eq_refl eq_refl eq_refl) as (He & _ & _ & _ & Hc).
  split; [exact He | exact Hc].
Defined.

Lemma mutate_calls_dispatch_inv h ue c :
  c ∈ mutate_calls (dispatch (CreatePostWizard h) ue) →
  is_submit ue
  ∧ is_Some (user h)
  ∧ isPosting h = false
  ∧ c = input h
  ∧ c ≠ "".
Proof.
  unfold CreatePostWizard. destruct (user h) as [u|]; simpl.
  2:{ intros Hin. by apply elem_of_nil in Hin. }
  destruct (isPosting h) eqn:Hp.
  { rewrite andb_false_r. destruct ue; simpl; intros Hin;
      by apply elem_of_nil in Hin. }
  rewrite andb_true_r.
  destruct ue as [|k|t]; simpl.
  - destruct (negb _) eqn:Hin; simpl; intros Hc.
    + apply list_elem_of_singleton in Hc as ->.
      split_and!; eauto; [by left|]. by apply truthy_string_true.
    + by apply elem_of_nil in Hc.
  - destruct (String.eqb_spec k "Enter") as [->|Hk]; simpl.
    + destruct (negb _) eqn:Hin; simpl; intros Hc.
      * apply list_elem_of_singleton in Hc as ->.
        split_and!; eauto; [by right|]. by apply truthy_string_true.
      * by apply elem_of_nil in Hc.
    + intros Hc. by apply elem_of_nil in Hc.
  - intros Hc. by apply elem_of_nil in Hc.
Qed.

(** X8: whenever a user event makes the composer send a create call, the
    event is a click or Enter, a user is signed in, no call is pending,
    and the content sent is the current draft, which is not empty. *)
Theorem create_call_conditions h ue c :
  c ∈ mutate_calls (dispatch (CreatePostWizard h) ue) →
  is_submit ue
  ∧ is_Some (user h)
  ∧ isPosting h = false
  ∧ c = input h
  ∧ c ≠ "".
Proof. apply mutate_calls_dispatch_inv. Qed.

Lemma create_call_conditions_witness :
  is_submit Click
  ∧ is_Some (user (wizard (Samples.composing "👍")))
  ∧ isPosting (wizard (Samples.composing "👍")) = false
  ∧ "👍" = input (wizard (Samples.composing "👍"))
  ∧ "👍" ≠ "".
Proof.
  apply (create_call_conditions (wizard (Samples.composing "👍")) Click "👍").
  apply list_elem_of_singleton. reflexivity.
Defined.

End ComposerExtras.

(** ** The error handler, whatever the error *)

Section ErrorExtras.

Import Wizard Page Trace.

Lemma onError_message e :
  ∃ m, onError e = [ConsoleLog "zodError" (Trpc.data e); ToastError m]
       ∧ m ≠ ""
       ∧ (m = fallback_message ∨ ∃ ms, content_errors e = Some (m :: ms)).
Proof.
  unfold onError.
  destruct (content_errors e) as [[|m ms]|] eqn:E; simpl.
  - exists fallback_message. split_and!; [done|done|by left].
  - destruct (Js.truthy_string m) eqn:Hm.
    + exists m. split_and!; [done| |by eauto].
      by apply truthy_string_true.
    + exists fallback_message. split_and!; [done|done|by left].
  - exists fallback_message. split_and!; [done|done|by left].
Qed.

(** X9: whatever the error, the handler logs it once and then shows
    exactly one message; that message is never empty, and it is either
    the fallback or the first message listed for [content]. *)
Theorem error_message_is_never_empty e :
  ∃ m, onError e = [ConsoleLog "zodError" (Trpc.data e); ToastError m]
       ∧ m ≠ ""
       ∧ (m = fallback_message ∨ ∃ ms, content_errors e = Some (m :: ms)).
Proof. apply onError_message. Qed.

(** X10: messages listed for a field other than [content] have no
    influence on what is shown: replacing them leaves the message of the
    handler unchanged. *)
Theorem other_fields_are_ignored z k msgs :
  k ≠ "content" →
  onError (zod_failure (with_field_errors k msgs z))
    = ConsoleLog "zodError"
        (Trpc.data (zod_failure (with_field_errors k msgs z)))
      :: map ToastError (toast_messages (onError (zod_failure z))).
Proof.
  intros Hk. unfold onError, content_errors. simpl.
  rewrite lookup_insert_ne by done.
  destruct (Trpc.fieldErrors z !! "content" ≫= _) as [m|]; [|done].
  by destruct (Js.truthy_string m).
Qed.

Lemma other_fields_are_ignored_witness :
  toast_messages
    (onError
       (zod_failure
          (with_field_errors "title" ["Required"]
             {| Trpc.formErrors := [];
                Trpc.fieldErrors := {[ "content" := ["Too long"] ]} |})))
  = ["Too long"].
Proof.
  rewrite (other_fields_are_ignored
             {| Trpc.formErrors := [];
                Trpc.fieldErrors := {[ "content" := ["Too long"] ]} |}
             "title" ["Required"]) by discriminate.
  vm_compute. reflexivity.
Defined.

End ErrorExtras.

(** ** Runs of the page *)

Section RunExtras.

Import Wizard Page Trace.

Lemma run_cons p ev evs : run p (ev :: evs) = run (step p ev) evs.
Proof. reflexivity. Qed.

Lemma run_app p evs1 evs2 : run p (evs1 ++ evs2) = run (run p evs1) evs2.
Proof. apply foldl_app. Qed.

Lemma log_step p ev : log (step p ev) = log p ++ step_effects p ev.
Proof.
  destruct ev as [ue|i r| |u]; simpl; rewrite ?app_nil_r; try done.
  - apply log_perform_all.
  - destruct (inflight p !! i); [|by rewrite app_nil_r].
    exact (log_perform_all (handler r) p).
Qed.

Lemma toasts_step p ev :
  toasts (step p ev) = toasts p ++ toast_messages (step_effects p ev).
Proof.
  destruct ev as [ue|i r| |u]; simpl; rewrite ?app_nil_r; try done.
  - apply toasts_perform_all.
  - destruct (inflight p !! i); [|by rewrite app_nil_r].
    exact (toasts_perform_all (handler r) p).
Qed.

Lemma toast_messages_dispatch h ue :
  toast_messages (dispatch (CreatePostWizard h) ue) = [].
Proof.
  unfold CreatePostWizard. destruct (user h) as [u|]; simpl; [|done].
  destruct ue as [|k|t]; simpl.
  - destruct (negb _ && negb _) eqn:E; simpl; [|done].
    by destruct (isPosting h).
  - destruct (isPosting h); [done|].
    destruct (k =? "Enter")%string; [|done]. by destruct (negb _).
  - by destruct (isPosting h).
Qed.

Lemma invalidations_dispatch h ue :
  invalidations (dispatch (CreatePostWizard h) ue) = [].
Proof.
  unfold CreatePostWizard. destruct (user h) as [u|]; simpl; [|done].
  destruct ue as [|k|t]; simpl.
  - destruct (negb _ && negb _) eqn:E; simpl; [|done].
    by destruct (isPosting h).
  - destruct (isPosting h); [done|].
    destruct (k =? "Enter")%string; [|done]. by destruct (negb _).
  - by destruct (isPosting h).
Qed.

Lemma mutate_calls_handler r : mutate_calls (handler r) = [].
Proof.
  destruct r as [|e]; [done|]. unfold handler.
  by destruct (onError_shape e) as [? ->].
Qed.

Lemma toasts_step_bound p ev :
  ∃ new, toasts (step p ev) = toasts p ++ new
         ∧ (length new ≤ if is_failure ev then 1 else 0)%nat
         ∧ Forall (λ m, m ≠ "") new.
Proof.
  exists (toast_messages (step_effects p ev)).
  split; [apply toasts_step|].
  unfold step_effects, handler, is_failure.
  destruct ev as [ue|i r| |u].
  - rewrite toast_messages_dispatch. simpl. split; [lia|constructor].
  - destruct (inflight p !! i), r as [|e];
      try (simpl; split; [lia|constructor]).
    destruct (onError_message e) as (m & -> & Hm & _). simpl.
    split; [lia|]. by repeat constructor.
  - simpl. split; [lia|constructor].
  - simpl. split; [lia|constructor].
Qed.

(** X11: over any run, messages already shown stay, and the messages
    added are at most one per failed create call, none of them empty.
    Without a failed create no message is ever shown. *)
Theorem messages_come_from_failures evs : ∀ p,
  ∃ new, toasts (run p evs) = toasts p ++ new
         ∧ (length new ≤ failures evs)%nat
         ∧ Forall (λ m, m ≠ "") new.
Proof.
  induction evs as [|ev evs IH]; intros p.
  - exists []. rewrite app_nil_r. split_and!; [done|simpl; lia|constructor].
  - rewrite run_cons.
    destruct (toasts_step_bound p ev) as (n1 & E1 & L1 & F1).
    destruct (IH (step p ev)) as (n2 & E2 & L2 & F2).
    exists (n1 ++ n2). split_and!.
    + by rewrite E2, E1, <- app_assoc.
    + rewrite length_app. unfold failures in *. simpl.
      destruct (is_failure ev); simpl; lia.
    + by apply Forall_app.
Qed.

Lemma invalidations_app fs gs :
  invalidations (fs ++ gs) = invalidations fs ++ invalidations gs.
Proof. apply omap_app. Qed.

Lemma invalidations_handler r :
  invalidations (handler r)
  = match r with Succeeded => [Discarded] | Failed _ => [] end.
Proof.
  destruct r as [|e]; [done|]. unfold handler.
  by destruct (onError_shape e) as [? ->].
Qed.

Lemma invalidations_step p ev :
  ∃ k, invalidations (log (step p ev))
       = invalidations (log p) ++ replicate k Discarded
       ∧ (k ≤ if is_success ev then 1 else 0)%nat.
Proof.
  rewrite log_step, invalidations_app.
  unfold step_effects, is_success.
  destruct ev as [ue|i r| |u].
  - exists 0%nat. by rewrite invalidations_dispatch.
  - destruct (inflight p !! i).
    + rewrite invalidations_handler. destruct r as [|e].
      * by exists 1%nat.
      * by exists 0%nat.
    + exists 0%nat. split; [done|]. destruct r; lia.
  - by exists 0%nat.
  - by exists 0%nat.
Qed.

(** X12: over any run, the feed is invalidated at most once per
    successfully settled create call, never on a failure or on a user
    event, and every invalidation discards its promise. *)
Theorem invalidations_come_from_successes evs : ∀ p,
  ∃ k, invalidations (log (run p evs))
       = invalidations (log p) ++ replicate k Discarded
       ∧ (k ≤ successes evs)%nat.
Proof.
  induction evs as [|ev evs IH]; intros p.
  - exists 0%nat. simpl. rewrite app_nil_r. split; [done|lia].
  - rewrite run_cons.
    destruct (invalidations_step p ev) as (k1 & E1 & L1).
    destruct (IH (step p ev)) as (k2 & E2 & L2).
    exists (k1 + k2)%nat. split.
    + by rewrite E2, E1, <- app_assoc, replicate_add.
    + unfold successes in *. simpl. destruct (is_success ev); simpl; lia.
Qed.

Lemma mutate_calls_step_nonempty p ev :
  Forall (λ c, c ≠ "") (mutate_calls (step_effects p ev)).
Proof.
  destruct ev as [ue|i r| |u]; simpl; try constructor.
  - apply Forall_forall. intros c Hc.
    by apply mutate_calls_dispatch_inv in Hc as (_ & _ & _ & _ & ?).
  - destruct (inflight p !! i); [|constructor].
    rewrite mutate_calls_handler. constructor.
Qed.

Lemma mutate_calls_run_nonempty evs : ∀ p,
  Forall (λ c, c ≠ "") (mutate_calls (log p)) →
  Forall (λ c, c ≠ "") (mutate_calls (log (run p evs))).
Proof.
  induction evs as [|ev evs IH]; intros p Hp; [done|].
  rewrite run_cons. apply IH.
  rewrite log_step, mutate_calls_app. apply Forall_app. split; [done|].
  apply mutate_calls_step_nonempty.
Qed.

(** X13: on every run of the page from its first render, no create call
    is ever sent with empty content. *)
Theorem never_creates_empty_post u evs :
  Forall (λ c, c ≠ "") (mutate_calls (log (run (init u) evs))).
Proof. apply mutate_calls_run_nonempty. constructor. Qed.

(** X14: on every run of the page from its first render, the hook
    reports a pending call exactly when one call is in flight, and the
    rendered composer shows the spinner and disables the field exactly
    then. *)
Theorem pending_indicator_tracks_call u evs :
  (isPosting (wizard (run (init u) evs)) = true
   ↔ ∃ c, inflight (run (init u) evs) = [c])
  ∧ ∀ w, CreatePostWizard (wizard (run (init u) evs)) = Some w →
      (is_Some (spinner w) ↔ ∃ c, inflight (run (init u) evs) = [c])
      ∧ (disabled (field w) = true
         ↔ ∃ c, inflight (run (init u) evs) = [c]).
Proof.
  pose proof (consistent_run evs (init u) (consistent_init u)) as Hc.
  set (q := run (init u) evs) in *.
  assert (isPosting (wizard q) = true ↔ ∃ c, inflight q = [c]) as Hiff.
  { destruct Hc as [[Hp Hfl]|[Hp [c Hfl]]]; rewrite Hp, Hfl.
    - split; [done|]. by intros [c ?].
    - split; eauto. }
  split; [exact Hiff|].
  intros w Hw.
  destruct (composer_affordances_aux (wizard q) w Hw) as (Hs & Hd).
  rewrite Hs, Hd. by split.
Qed.

End RunExtras.

(** ** Composing, submitting and settling *)

Section RoundTrips.

Import Wizard Page Trace.

Lemma toasts_step_success p :
  toasts (step p (Settled 0 Succeeded)) = toasts p.
Proof.
  rewrite toasts_step. unfold step_effects.
  destruct (inflight p !! 0%nat); by rewrite app_nil_r.
Qed.

Lemma step_submit p u s :
  user (wizard p) = Some u →
  isPosting (wizard p) = false →
  input (wizard p) ≠ "" →
  is_submit s →
  wizard (step p (UserDoes s))
    = {| input := input (wizard p); isPosting := true; user := Some u |}
  ∧ inflight (step p (UserDoes s)) = input (wizard p) :: inflight p
  ∧ toasts (step p (UserDoes s)) = toasts p
  ∧ refetching (step p (UserDoes s)) = refetching p
  ∧ mutate_calls (log (step p (UserDoes s)))
    = mutate_calls (log p) ++ [input (wizard p)].
Proof.
  intros Hu Hp Hin Hs.
  apply truthy_string_true in Hin. unfold Js.truthy_string in Hin.
  unfold step.
  destruct Hs as [-> | ->];
    [rewrite (dispatch_click _ u Hu) | rewrite (dispatch_enter _ u Hu)];
    rewrite Hp, Hin; simpl; rewrite Hu;
    rewrite mutate_calls_app, ?mutate_calls_app; simpl;
    by rewrite ?app_nil_r.
Qed.

Lemma step_settle_first p d r :
  inflight p = [d] →
  wizard (step p (Settled 0 r))
    = {| input := match r with
                  | Succeeded => ""
                  | Failed _ => input (wizard p)
                  end;
         isPosting := false; user := user (wizard p) |}
  ∧ inflight (step p (Settled 0 r)) = []
  ∧ mutate_calls (log (step p (Settled 0 r))) = mutate_calls (log p)
  ∧ refetching (step p (Settled 0 r))
    = match r with
      | Succeeded => S (refetching p)
      | Failed _ => refetching p
      end.
Proof.
  intros Hfl.
  assert (step p (Settled 0 r) = settle 0 (perform_all p (handler r))) as ->.
  { unfold step. by rewrite Hfl. }
  unfold settle. cbn [wizard inflight log refetching input isPosting user].
  rewrite input_perform_all, user_perform_all, inflight_perform_all,
    log_perform_all, refetching_perform_all, mutate_calls_app,
    mutate_calls_handler, invalidations_handler, app_nil_r, Hfl.
  destruct r as [|e]; [done|].
  unfold handler. by rewrite input_writes_onError.
Qed.

Lemma run_user_pending ues : ∀ p,
  isPosting (wizard p) = true → run p (map UserDoes ues) = p.
Proof.
  induction ues as [|ue ues IH]; intros p Hp; [done|].
  simpl map. rewrite run_cons, step_user_pending by done. by apply IH.
Qed.

(** X15: typing into the enabled field replaces the draft by the text
    the field now holds, whatever that text is, and changes nothing else.
    Submitting afterwards sends exactly that text, once, when it is not
    empty, and sends nothing when the typing emptied the field. *)
Theorem typing_sets_the_draft p u t :
  user (wizard p) = Some u →
  isPosting (wizard p) = false →
  wizard (step p (UserDoes (Change t)))
    = {| input := t; isPosting := false; user := Some u |}
  ∧ inflight (step p (UserDoes (Change t))) = inflight p
  ∧ toasts (step p (UserDoes (Change t))) = toasts p
  ∧ refetching (step p (UserDoes (Change t))) = refetching p
  ∧ mutate_calls (log (step p (UserDoes (Change t)))) = mutate_calls (log p)
  ∧ ∀ s, is_submit s →
      mutate_calls (log (run p [UserDoes (Change t); UserDoes s]))
        = mutate_calls (log p) ++ (if negb (t =? "")%string then [t] else [])
      ∧ inflight (run p [UserDoes (Change t); UserDoes s])
        = (if negb (t =? "")%string then [t] else []) ++ inflight p.
Proof.
  intros Hu Hp.
  assert (step p (UserDoes (Change t)) = perform p (SetInput t)) as Hstep.
  { unfold step, CreatePostWizard. rewrite Hu. simpl. by rewrite Hp. }
  assert (Hlog : mutate_calls (log (perform p (SetInput t)))
                 = mutate_calls (log p)).
  { simpl. rewrite mutate_calls_app. simpl. by rewrite app_nil_r. }
  split_and!.
  1-5: rewrite Hstep; try exact Hlog; simpl; by rewrite ?Hu, ?Hp.
  intros s Hs.
  change (run p [UserDoes (Change t); UserDoes s])
    with (step (step p (UserDoes (Change t))) (UserDoes s)).
  rewrite Hstep. set (q := perform p (SetInput t)).
  assert (Hq : wizard q = {| input := t; isPosting := false;
                             user := Some u |}).
  { unfold q. simpl. by rewrite Hu, Hp. }
  assert (Hm : mutate_calls (dispatch (CreatePostWizard (wizard q)) s)
               = if negb (t =? "")%string then [t] else []).
  { rewrite (mutate_calls_submit (wizard q) u s); rewrite ?Hq; try done.
    simpl. by rewrite andb_true_r. }
  unfold step. rewrite log_perform_all, inflight_perform_all,
    mutate_calls_app, Hm.
  split.
  - unfold q. by rewrite Hlog.
  - unfold q. simpl. by destruct (negb _).
Qed.

Lemma typing_sets_the_draft_witness :
  input (wizard (step (Samples.composing "👍") (UserDoes (Change "🎉"))))
    = "🎉"
  ∧ mutate_calls
      (log (run (Samples.composing "👍")
              [UserDoes (Change "🎉"); UserDoes Click]))
    = ["🎉"]
  ∧ mutate_calls
      (log (run (Samples.composing "👍")
              [UserDoes (Change ""); UserDoes (KeyDown "Enter")]))
    = [].
Proof.
  destruct (typing_sets_the_draft (Samples.composing "👍") Samples.ada
              "🎉" eq_refl eq_refl) as (Hw & _ & _ & _ & _ & Hs).
  destruct (typing_sets_the_draft (Samples.composing "👍") Samples.ada
              "" eq_refl eq_refl) as (_ & _ & _ & _ & _ & Hs0).
  split_and!.
  - by rewrite Hw.
  - exact (proj1 (Hs Click (or_introl eq_refl))).
  - exact (proj1 (Hs0 (KeyDown "Enter") (or_intror eq_refl))).
Defined.

(** X16: a non-empty draft submitted from the idle composer and settled
    successfully leaves the composer idle with an empty draft, no call in
    flight, one more refetch outstanding and no message shown; the
    composer then renders an enabled, empty field with neither button nor
    spinner. *)
Theorem submit_then_success p u s :
  user (wizard p) = Some u →
  isPosting (wizard p) = false →
  inflight p = [] →
  input (wizard p) ≠ "" →
  is_submit s →
  wizard (run p [UserDoes s; Settled 0 Succeeded])
    = {| input := ""; isPosting := false; user := Some u |}
  ∧ inflight (run p [UserDoes s; Settled 0 Succeeded]) = []
  ∧ refetching (run p [UserDoes s; Settled 0 Succeeded]) = S (refetching p)
  ∧ toasts (run p [UserDoes s; Settled 0 Succeeded]) = toasts p
  ∧ ∃ w, CreatePostWizard (wizard (run p [UserDoes s; Settled 0 Succeeded]))
         = Some w
         ∧ value (field w) = ""
         ∧ disabled (field w) = false
         ∧ post_button w = None
         ∧ spinner w = None.
Proof.
  intros Hu Hp Hfl Hin Hs.
  destruct (step_submit p u s Hu Hp Hin Hs) as (Hw1 & Hfl1 & Ht1 & Hr1 & _).
  rewrite Hfl in Hfl1.
  destruct (step_settle_first _ _ Succeeded Hfl1) as (Hw2 & Hfl2 & _ & Hr2).
  change (run p [UserDoes s; Settled 0 Succeeded])
    with (step (step p (UserDoes s)) (Settled 0 Succeeded)).
  rewrite Hw2, Hfl2, Hr2, Hr1, toasts_step_success, Ht1, Hw1.
  cbn [user]. split_and!; try done.
  eexists. split; [reflexivity|]. by simpl.
Qed.

Lemma submit_then_success_witness :
  wizard (run (Samples.composing "👍")
            [UserDoes (KeyDown "Enter"); Settled 0 Succeeded])
    = {| input := ""; isPosting := false; user := Some Samples.ada |}
  ∧ refetching (run (Samples.composing "👍")
                  [UserDoes (KeyDown "Enter"); Settled 0 Succeeded])
    = 1%nat.
Proof.
  destruct (submit_then_success (Samples.composing "👍") Samples.ada
              (KeyDown "Enter") eq_refl eq_refl eq_refl)
    as (Hw & _ & Hr & _).
  - discriminate.
  - by right.
  - split; [exact Hw | exact Hr].
Defined.

(** X17: a non-empty draft submitted from the idle composer stays what
    it is through anything the user does while the call is pending and
    through the failure of the call; exactly one message is shown, the
    feed is not invalidated, and submitting again sends the same content
    a second time. *)
Theorem submit_fail_retry p u s1 ues e s2 :
  user (wizard p) = Some u →
  isPosting (wizard p) = false →
  inflight p = [] →
  input (wizard p) ≠ "" →
  is_submit s1 → is_submit s2 →
  wizard (run p (UserDoes s1 :: map UserDoes ues ++ [Settled 0 (Failed e)]))
    = wizard p
  ∧ (∃ m, toasts (run p (UserDoes s1 :: map UserDoes ues
                           ++ [Settled 0 (Failed e)]))
          = toasts p ++ [m])
  ∧ refetching (run p (UserDoes s1 :: map UserDoes ues
                         ++ [Settled 0 (Failed e)]))
    = refetching p
  ∧ mutate_calls
      (log (run p (UserDoes s1 :: map UserDoes ues
                     ++ [Settled 0 (Failed e); UserDoes s2])))
    = mutate_calls (log p) ++ [input (wizard p); input (wizard p)]
  ∧ inflight (run p (UserDoes s1 :: map UserDoes ues
                       ++ [Settled 0 (Failed e); UserDoes s2]))
    = [input (wizard p)].
Proof.
  intros Hu Hp Hfl Hin Hs1 Hs2.
  assert (Hwp : wizard p
                = {| input := input (wizard p); isPosting := false;
                     user := Some u |}).
  { destruct (wizard p); simpl in *. by subst. }
  destruct (step_submit p u s1 Hu Hp Hin Hs1) as (Hw1 & Hfl1 & Ht1 & Hr1 & Hm1).
  rewrite Hfl in Hfl1.
  set (q1 := step p (UserDoes s1)) in *.
  assert (Hpend : ∀ rest,
             run p (UserDoes s1 :: map UserDoes ues ++ rest) = run q1 rest).
  { intros rest. rewrite run_cons, run_app.
    fold q1. rewrite run_user_pending; [done|]. by rewrite Hw1. }
  destruct (step_settle_first q1 _ (Failed e) Hfl1)
    as (Hw2 & Hfl2 & Hm2 & Hr2).
  set (q2 := step q1 (Settled 0 (Failed e))) in *.
  assert (Hq2 : wizard q2 = wizard p).
  { rewrite Hw2, Hw1. simpl. by rewrite <- Hwp. }
  rewrite !Hpend.
  change (run q1 [Settled 0 (Failed e)]) with q2.
  change (run q1 [Settled 0 (Failed e); UserDoes s2])
    with (step q2 (UserDoes s2)).
  split_and!.
  - exact Hq2.
  - destruct (onError_message e) as (m & Hon & _).
    exists m. unfold q2. rewrite toasts_step. unfold step_effects.
    rewrite Hfl1. cbn [lookup list_lookup]. unfold handler.
    by rewrite Hon, Ht1.
  - by rewrite Hr2, Hr1.
  - destruct (step_submit q2 u s2) as (_ & _ & _ & _ & Hm3);
      rewrite ?Hq2; try done.
    rewrite Hm3, Hm2, Hm1, Hq2, <- app_assoc. done.
  - destruct (step_submit q2 u s2) as (_ & Hfl3 & _);
      rewrite ?Hq2; try done.
    by rewrite Hfl3, Hfl2, Hq2.
Qed.

Lemma submit_fail_retry_witness :
  wizard (run (Samples.composing "👍👍")
            (UserDoes Click :: map UserDoes [Change "x"; Click]
               ++ [Settled 0 (Failed Samples.rate_limit_error)]))
    = wizard (Samples.composing "👍👍")
  ∧ mutate_calls
      (log (run (Samples.composing "👍👍")
              (UserDoes Click :: map UserDoes [Change "x"; Click]
                 ++ [Settled 0 (Failed Samples.rate_limit_error);
                     UserDoes (KeyDown "Enter")])))
    = ["👍👍"; "👍👍"].
Proof.
  destruct (submit_fail_retry (Samples.composing "👍👍") Samples.ada
              Click [Change "x"; Click] Samples.rate_limit_error
              (KeyDown "Enter") eq_refl eq_refl eq_refl)
    as (Hw & _ & _ & Hm & _).
  - discriminate.
  - by left.
  - by right.
  - split; [exact Hw | exact Hm].
Defined.

End RoundTrips.

(** ** [Home] *)

Section HomeExtras.

Import HomePage.

(** X19: once the identity has loaded, the page renders the feed for
    every visitor, signed in or not, exactly as [Feed] renders the cache
    entry; the composer is rendered exactly when the provider supplies a
    user, and then shows the current draft; the sign-out button is
    rendered exactly when the provider reports signed in.  So when the
    provider reports a user exactly when signed in, the composer and the
    sign-out button are rendered together or not at all. *)
Theorem home_layout fromNow env :
  isLoaded (identity env) = true →
  ∃ composer,
    Home fromNow env
    = PageLayout composer (isSignedIn (identity env))
        (FeedView.Feed fromNow (posts env))
    ∧ (is_Some composer ↔ is_Some (user (identity env)))
    ∧ (∀ w, composer = Some w →
         Wizard.value (Wizard.field w) = draft env
         ∧ Wizard.disabled (Wizard.field w) = posting env)
    ∧ (coherent (identity env) →
       (is_Some composer ↔ isSignedIn (identity env) = true)).
Proof.
  intros Hl. unfold Home. rewrite Hl. simpl.
  eexists. split; [reflexivity|].
  unfold coherent, Wizard.CreatePostWizard. simpl.
  destruct (user (identity env)) as [u|]; simpl.
  - split_and!.
    + split; eauto.
    + by intros w [= <-].
    + intros Hc. split; [intros _; apply Hc; eauto | eauto].
  - split_and!.
    + done.
    + by intros w.
    + intros Hc. split; [by intros [? ?] | intros Hs].
      by apply Hc in Hs as [? ?].
Qed.

Lemma home_layout_witness :
  ∃ composer,
    Home FeedView.now_label
      {| identity := {| isLoaded := true; isSignedIn := false;
                        user := None |};
         draft := ""; posting := false;
         posts := {| FeedView.data := Some [FeedView.sample_post];
                     FeedView.isLoading := false;
                     FeedView.isError := false |} |}
    = PageLayout composer false
        (FeedView.PostList
           [FeedView.post_child FeedView.now_label FeedView.sample_post])
    ∧ composer = None.
Proof.
  destruct (home_layout FeedView.now_label
              {| identity := {| isLoaded := true; isSignedIn := false;
                                user := None |};
                 draft := ""; posting := false;
                 posts := {| FeedView.data := Some [FeedView.sample_post];
                             FeedView.isLoading := false;
                             FeedView.isError := false |} |} eq_refl)
    as (composer & HH & Hiff & _).
  exists composer. split; [exact HH|].
  destruct composer as [w|]; [|reflexivity].
  simpl in Hiff. destruct Hiff as [Hiff _].
  by destruct (Hiff (ex_intro _ w eq_refl)) as [? ?].
Defined.

End HomeExtras.
